(** * gloria-mcp: the response shapers, the API client and the tool registry

    A shallow embedding of [gloria_mcp/models.py], [gloria_mcp/client.py]
    and [gloria_mcp/server.py].  Decoded JSON is a [value]; a Python [dict]
    is an insertion-ordered association list; exceptions are the [Raise]
    branch of [result]; the process state (environment, the module-level
    client, its HTTP sessions, the GETs handed to httpx) is threaded by a
    state-and-exception monad.  A [str] is modelled by its UTF-8 bytes. *)

From Stdlib Require Import ZArith String Ascii List Floats.
From stdpp Require Import base tactics option list strings gmap.

#[local] Set Warnings "-register-all".
Local Open Scope string_scope.
Local Open Scope list_scope.
Local Open Scope Z_scope.

(** ** The Python values the adapter handles *)

Module Py.

(** What [json()] decodes to: [None], [bool], [int], [float], [str],
    [list] and [dict] with string keys. *)
Inductive value : Type :=
| VNone
| VBool (b : bool)
| VInt (n : Z)
| VFloat (x : float)
| VStr (s : string)
| VList (l : list value)
| VDict (d : list (string * value)).

(** A [dict] keeps its keys in insertion order. *)
Abbreviation dict := (list (string * value)).

(** The exceptions that can reach the adapter; all derive from
    [Exception]. *)
Inductive exn : Type :=
| KeyError (k : string)
| TypeError
| AttributeError
| RuntimeError (msg : string)
| HTTPStatusError (status : Z)
| TransportError
| InvalidURL
| JSONDecodeError
| UnicodeDecodeError.

Inductive result (A : Type) : Type :=
| Ok (a : A)
| Raise (e : exn).
Arguments Ok {A} a.
Arguments Raise {A} e.

#[global] Instance result_ret : MRet result := @Ok.
#[global] Instance result_bind : MBind result := λ A B f r,
  match r with
  | Ok a => f a
  | Raise e => Raise e
  end.
#[global] Instance result_fmap : FMap result := λ A B f r,
  match r with
  | Ok a => Ok (f a)
  | Raise e => Raise e
  end.

(** [d.get(k)] as an option: the value of the first (and, in a well-formed
    dict, only) entry under [k]. *)
Fixpoint dict_get (d : dict) (k : string) : option value :=
  match d with
  | [] => None
  | (k', v) :: d' => if decide (k' = k) then Some v else dict_get d' k
  end.

(** [k in d] *)
Definition dict_contains (d : dict) (k : string) : bool :=
  bool_decide (is_Some (dict_get d k)).

(** [d[k] = v]: an existing key keeps its position, a new key goes last. *)
Fixpoint dict_set (d : dict) (k : string) (v : value) : dict :=
  match d with
  | [] => [(k, v)]
  | (k', v') :: d' =>
      if decide (k' = k) then (k', v) :: d' else (k', v') :: dict_set d' k v
  end.

(** [list(d)]: the keys in iteration order. *)
Definition dict_keys (d : dict) : list string := d.*1.

(** The key set, order forgotten. *)
Definition key_set (d : dict) : gset string := list_to_set (dict_keys d).

(** [k in s] for two strings: substring test. *)
Fixpoint str_contains (k s : string) : bool :=
  match s with
  | EmptyString => String.prefix k EmptyString
  | String _ s' => String.prefix k s || str_contains k s'
  end.

(** [x == k] for a decoded value [x] and a string [k]. *)
Definition eq_str (x : value) (k : string) : bool :=
  match x with
  | VStr s => bool_decide (s = k)
  | _ => false
  end.

(** [k in item] for a string [k]. *)
Definition py_contains (k : string) (item : value) : result bool :=
  match item with
  | VDict d => Ok (dict_contains d k)
  | VList l => Ok (existsb (λ x, eq_str x k) l)
  | VStr s => Ok (str_contains k s)
  | VNone | VBool _ | VInt _ | VFloat _ => Raise TypeError
  end.

(** [item[k]] for a string [k]. *)
Definition py_getitem (item : value) (k : string) : result value :=
  match item with
  | VDict d =>
      match dict_get d k with
      | Some v => Ok v
      | None => Raise (KeyError k)
      end
  | _ => Raise TypeError
  end.

(** [item.get(k)]: only a dict has the method. *)
Definition py_get (item : value) (k : string) : result value :=
  match item with
  | VDict d => Ok (default VNone (dict_get d k))
  | _ => Raise AttributeError
  end.

(** [bool(x)] *)
Definition truthy (x : value) : bool :=
  match x with
  | VNone => false
  | VBool b => b
  | VInt n => negb (Z.eqb n 0)
  | VFloat f => negb (PrimFloat.eqb f 0%float)
  | VStr s => negb (bool_decide (s = ""))
  | VList l => negb (bool_decide (l = []))
  | VDict d => negb (bool_decide (d = []))
  end.

(** [x is None] *)
Definition is_None (x : value) : bool :=
  match x with VNone => true | _ => false end.

(** An optional [str] argument ([str | None]) as a value. *)
Definition of_optional (o : option string) : value :=
  match o with
  | Some s => VStr s
  | None => VNone
  end.

(** A byte of the form [10xxxxxx] continues a UTF-8 code point. *)
Definition is_continuation (c : ascii) : bool :=
  match c with
  | Ascii _ _ _ _ _ _ b6 b7 => b7 && negb b6
  end.

(** Does [s] start inside a code point? *)
Definition continues (s : string) : bool :=
  match s with
  | String c _ => is_continuation c
  | EmptyString => false
  end.

(** The characters of a [str], one string per code point. *)
Fixpoint chars (s : string) : list string :=
  match s with
  | EmptyString => []
  | String c s' =>
      match chars s' with
      | g :: gs =>
          if continues s' then String c g :: gs
          else String c EmptyString :: g :: gs
      | [] => [String c EmptyString]
      end
  end.

(** [for x in v]: the elements a loop or comprehension visits. *)
Definition py_iter (v : value) : result (list value) :=
  match v with
  | VList l => Ok l
  | VDict d => Ok (VStr <$> dict_keys d)
  | VStr s => Ok (VStr <$> chars s)
  | VNone | VBool _ | VInt _ | VFloat _ => Raise TypeError
  end.

(** [sep.join(lines)] *)
Fixpoint join (sep : string) (lines : list string) : string :=
  match lines with
  | [] => ""
  | [l] => l
  | l :: ls => l +:+ sep +:+ join sep ls
  end.

(** The line feed, written ["\n"] in the source. *)
Definition LF : string := String "010"%char EmptyString.

(** [[f(x) for x in xs]] for an [f] that may raise. *)
Fixpoint for_each {A B} (f : A → result B) (xs : list A) : result (list B) :=
  match xs with
  | [] => Ok []
  | x :: xs' => y ← f x; ys ← for_each f xs'; mret (y :: ys)
  end.

(** [for x in xs: acc = body(acc, x)] for a [body] that may raise. *)
Fixpoint for_loop {A B} (body : B → A → result B) (acc : B) (xs : list A)
  : result B :=
  match xs with
  | [] => Ok acc
  | x :: xs' => acc' ← body acc x; for_loop body acc' xs'
  end.

(** *** Code that reads and writes a state [S] and may raise *)

Definition M (S A : Type) : Type := S → result A * S.

#[global] Instance M_ret {S} : MRet (M S) := λ A a s, (Ok a, s).
#[global] Instance M_bind {S} : MBind (M S) := λ A B f m s,
  match m s with
  | (Ok a, s') => f a s'
  | (Raise e, s') => (Raise e, s')
  end.

Definition gets {S A} (f : S → A) : M S A := λ s, (Ok (f s), s).
Definition modify {S} (f : S → S) : M S unit := λ s, (Ok tt, f s).
Definition raise {S A} (e : exn) : M S A := λ s, (Raise e, s).
Definition lift {S A} (r : result A) : M S A := λ s, (r, s).

(** [try: body  except Exception: handler]; what [body] did to the state
    before it raised stays done. *)
Definition try_except {S A} (body : M S A) (handler : exn → M S A) : M S A :=
  λ s, match body s with
       | (Ok a, s') => (Ok a, s')
       | (Raise e, s') => handler e s'
       end.

End Py.
Import Py.

(** ** models.py *)

Module Models.

Definition X402_BASE : string := "https://api.itsgloria.ai".

Definition FREE_NEWS_FIELDS : list string :=
  [ "id"; "signal"; "sentiment"; "sentiment_value"; "timestamp";
    "feed_categories"; "sources"; "author"; "tokens"; "tweet_url" ].

(** The comprehension [{k: item[k] for k in fields if k in item}], run
    with the dict built so far. *)
Fixpoint project (fields : list string) (item : value) (acc : dict)
  : result dict :=
  match fields with
  | [] => Ok acc
  | k :: fields' =>
      b ← py_contains k item;
      if b : bool then
        v ← py_getitem item k;
        project fields' item (dict_set acc k v)
      else project fields' item acc
  end.

Definition truncate_news (item : value) : result value :=
  VDict <$> project FREE_NEWS_FIELDS item [].

Definition format_recap (item : value) : result value :=
  feed_category ← py_get item "feed_category";
  timeframe ← py_get item "timeframe";
  recap ← py_get item "recap";
  created_at ← py_get item "created_at";
  mret (VDict [ ("feed_category", feed_category);
                ("timeframe", timeframe);
                ("recap", recap);
                ("created_at", created_at) ]).

Definition enriched_news_payment_info : value :=
  VDict
    [ ("payment_required", VBool true);
      ("protocol", VStr "x402");
      ("description", VStr (
         "Get enriched news with full AI-generated context, entity analysis, " +:+
         "and token mentions. Includes long_context and short_context fields " +:+
         "omitted from the free tier."));
      ("endpoint", VStr (X402_BASE +:+ "/news"));
      ("method", VStr "GET");
      ("required_params", VDict
         [ ("feed_categories",
            VStr "Category code (e.g. 'bitcoin', 'defi', 'ai')") ]);
      ("optional_params", VDict
         [ ("from_date", VStr "YYYY-MM-DD");
           ("to_date", VStr "YYYY-MM-DD");
           ("limit", VStr "1-10, default 10");
           ("page", VStr "Page number, default 1") ]);
      ("price", VStr "USDC on Base — exact amount returned in HTTP 402 response");
      ("how_to_pay", VStr (
         "Send a GET request to the endpoint. You'll receive an HTTP 402 " +:+
         "response with payment details. Complete the USDC payment on Base " +:+
         "network, then retry with the payment proof header.")) ].

Definition ticker_summary_payment_info : value :=
  VDict
    [ ("payment_required", VBool true);
      ("protocol", VStr "x402");
      ("description", VStr (
         "Get a comprehensive 24-hour AI-generated summary for any crypto " +:+
         "ticker or topic. Combines Gloria's curated news with web search " +:+
         "for decision-grade bullet points."));
      ("endpoint", VStr (X402_BASE +:+ "/news-ticker-summary"));
      ("method", VStr "GET");
      ("required_params", VDict
         [ ("ticker",
            VStr "Ticker symbol or topic name (e.g. 'SOL', 'LayerZero', 'ETH')") ]);
      ("price", VStr "USDC on Base — exact amount returned in HTTP 402 response");
      ("how_to_pay", VStr (
         "Send a GET request to the endpoint. You'll receive an HTTP 402 " +:+
         "response with payment details. Complete the USDC payment on Base " +:+
         "network, then retry with the payment proof header.")) ].

End Models.

(** ** client.py *)

Module Client.

(** [s.rstrip(c)] for a one-character [c]. *)
Fixpoint rstrip (s : string) (c : ascii) : string :=
  match s with
  | EmptyString => EmptyString
  | String a s' =>
      match rstrip s' c with
      | EmptyString => if decide (a = c) then EmptyString else String a EmptyString
      | r => String a r
      end
  end.

(** An ASCII character that is not printable: a control character or
    DEL. *)
Definition is_control (c : ascii) : bool :=
  let n := N_of_ascii c in (n <? 32)%N || (n =? 127)%N.

(** Does the string hold one?  httpx refuses to build a URL from a string
    that does. *)
Fixpoint has_control (s : string) : bool :=
  match s with
  | EmptyString => false
  | String c s' => is_control c || has_control s'
  end.

(** An [httpx.AsyncClient]: which object it is (the sessions of a process
    are numbered as they are built), where it points, its timeout, and
    whether [aclose()] has been called on it. *)
Record AsyncClient : Type := {
  serial : nat;
  base_url : string;
  timeout : float;
  is_closed : bool;
}.

(** A call [client.get(path, params=params)]: the session it is made on
    and the arguments as they are handed to httpx, before httpx checks,
    escapes and resolves them against the base URL. *)
Record Request : Type := {
  session : AsyncClient;
  path : string;
  params : dict;
}.

(** What comes back for a GET that httpx let through: nothing (connection
    failure, timeout), a status with a body of text that is JSON or is
    not, or a status with a body that is not text (bytes that are not
    valid UTF-8). *)
Inductive Reply : Type :=
| NoReply
| Response (status_code : Z) (body : option value)
| Undecodable (status_code : Z).

(** The body of an [httpx.Response], by what [json()] can make of it. *)
Inductive Content : Type :=
| Json (v : value)
| NotJson
| NotText.

(** An [httpx.Response]. *)
Record HttpResponse : Type := {
  status_code : Z;
  content : Content;
}.

Record GloriaClient : Type := {
  _base_url : string;
  _token : string;
  _http : option AsyncClient;
}.

(** What a method of the client sees: its [self], the GETs handed to
    httpx so far, whether httpx then let them through or not, and the
    number of sessions built so far. *)
Record Conn : Type := {
  self : GloriaClient;
  wire : list Request;
  built : nat;
}.

Definition set_http (h : option AsyncClient) (s : Conn) : Conn :=
  {| self := {| _base_url := _base_url (self s);
                _token := _token (self s);
                _http := h |};
     wire := wire s;
     built := built s |}.

Definition send (rq : Request) (s : Conn) : Conn :=
  {| self := self s; wire := (wire s ++ [rq])%list; built := built s |}.

(** [httpx.AsyncClient(base_url=..., timeout=...)]: a new open session,
    the next in number.  The base URL is taken to be one httpx accepts. *)
Definition AsyncClient_init (base_url : string) (timeout : float)
  : M Conn AsyncClient := λ s,
  (Ok {| serial := built s; base_url := base_url; timeout := timeout;
         is_closed := false |},
   {| self := self s; wire := wire s; built := S (built s) |}).

Definition __init__ (base_url token : string) : GloriaClient :=
  {| _base_url := rstrip base_url "/"; _token := token; _http := None |}.

Section Upstream.

(** The upstream API: its reply to a GET that httpx let through, given
    the calls made before. *)
Variable upstream : list Request → Request → Reply.

(** [httpx.AsyncClient.get]: httpx builds the URL and refuses a path with
    a non-printable ASCII character; it refuses to send on a closed
    session; else the GET goes out.  URLs are taken to stay below the
    length httpx allows. *)
Definition AsyncClient_get (client : AsyncClient) (path : string)
    (params : dict) : M Conn HttpResponse :=
  let rq := {| session := client; path := path; params := params |} in
  seen ← gets wire;
  _ ← modify (send rq);
  if has_control path then raise InvalidURL
  else if is_closed client then
    raise (RuntimeError "Cannot send a request, as the client has been closed.")
  else
    match upstream seen rq with
    | NoReply => raise TransportError
    | Response status_code body =>
        mret {| status_code := status_code;
                content := match body with
                           | Some v => Json v
                           | None => NotJson
                           end |}
    | Undecodable status_code =>
        mret {| status_code := status_code; content := NotText |}
    end.

(** [resp.raise_for_status()]: anything but 2xx raises. *)
Definition raise_for_status (resp : HttpResponse) : M Conn unit :=
  if bool_decide (200 ≤ status_code resp < 300)%Z then mret tt
  else raise (HTTPStatusError (status_code resp)).

(** [resp.json()] *)
Definition json (resp : HttpResponse) : M Conn value :=
  match content resp with
  | Json v => mret v
  | NotJson => raise JSONDecodeError
  | NotText => raise UnicodeDecodeError
  end.

Definition _client : M Conn AsyncClient :=
  http ← gets (λ s, _http (self s));
  let fresh : M Conn AsyncClient :=
    base ← gets (λ s, _base_url (self s));
    h ← AsyncClient_init base 30%float;
    _ ← modify (set_http (Some h));
    mret h in
  match http with
  | None => fresh
  | Some h => if is_closed h then fresh else mret h
  end.

Definition _get (path : string) (params : option dict) : M Conn value :=
  client ← _client;
  let params :=
    match params with
    | Some (kv :: d) => kv :: d
    | Some [] | None => []
    end in
  token ← gets (λ s, _token (self s));
  let params := dict_set params "token" (VStr token) in
  resp ← AsyncClient_get client path params;
  _ ← raise_for_status resp;
  json resp.

Definition get_news (category keyword : option string) (limit : Z)
  : M Conn value :=
  let params := [ ("limit", VInt limit); ("page", VInt 1) ] in
  let params :=
    if truthy (of_optional category)
    then dict_set params "feed_categories" (of_optional category)
    else params in
  let params :=
    if truthy (of_optional keyword)
    then dict_set params "keyword" (of_optional keyword)
    else params in
  _get "/news" (Some params).

Definition get_news_by_id (news_id : string) : M Conn value :=
  _get ("/news/" +:+ news_id) None.

Definition get_recap (category timeframe : string) : M Conn value :=
  _get "/recaps" (Some [ ("feed_category", VStr category);
                         ("timeframe", VStr timeframe) ]).

Definition get_categories : M Conn value :=
  _get "/available-feed-categories" None.

Definition close : M Conn unit :=
  http ← gets (λ s, _http (self s));
  match http with
  | Some h =>
      if negb (is_closed h)
      then modify (set_http (Some {| serial := serial h;
                                     base_url := base_url h;
                                     timeout := timeout h;
                                     is_closed := true |}))
      else mret tt
  | None => mret tt
  end.

End Upstream.

End Client.

(** ** server.py *)

Module Server.

(** The process: its environment (after [load_dotenv()]), the
    module-level [_client], the GETs handed to httpx so far, and the
    number of sessions built so far. *)
Record World : Type := {
  environ : gmap string string;
  _client : option Client.GloriaClient;
  wire : list Client.Request;
  built : nat;
}.

Definition set_client (c : option Client.GloriaClient) (w : World) : World :=
  {| environ := environ w; _client := c; wire := wire w; built := built w |}.

(** A method call on the module-level client: the method runs on that
    object and on the process's network, and what it did to both stays
    done. *)
Definition on_client {A} (method : M Client.Conn A) : M World A := λ w,
  match _client w with
  | Some obj =>
      let '(r, s) := method {| Client.self := obj;
                               Client.wire := wire w;
                               Client.built := built w |} in
      (r, {| environ := environ w;
             _client := Some (Client.self s);
             wire := Client.wire s;
             built := Client.built s |})
  | None => (Raise AttributeError, w)
  end.

(** Returns the module-level client, building it on first need; the
    caller's method call then goes through [on_client]. *)
Definition _get_client : M World unit :=
  c ← gets _client;
  match c with
  | None =>
      token ← gets (λ w, default "" (environ w !! "GLORIA_API_TOKEN"));
      base_url ← gets (λ w, default "https://ai-hub.cryptobriefing.com"
                                    (environ w !! "AI_HUB_BASE_URL"));
      if negb (truthy (VStr token)) then
        raise (RuntimeError "GLORIA_API_TOKEN environment variable is required")
      else modify (set_client (Some (Client.__init__ base_url token)))
  | Some _ => mret tt
  end.

Definition FALLBACK : string :=
  "Categories temporarily unavailable. Use the get_categories tool instead.".

Section Tools.

Variable upstream : list Client.Request → Client.Request → Client.Reply.

(** [str(x)] of the interpreter, for the values an f-string interpolates
    that are not already a [str]. *)
Variable str_of : value → string.

Definition fmt (x : value) : string :=
  match x with
  | VStr s => s
  | _ => str_of x
  end.

Definition get_latest_news (category : option string) (limit : Z)
  : M World value :=
  let limit := Z.max 1 (Z.min 10 limit) in
  _ ← _get_client;
  items ← on_client (Client.get_news upstream category None limit);
  lift (xs ← py_iter items; VList <$> for_each Models.truncate_news xs).

Definition get_news_recap (category timeframe : string) : M World value :=
  _ ← _get_client;
  result ← on_client (Client.get_recap upstream category timeframe);
  if is_None result then
    mret (VDict [ ("error", VStr ("No recap found for category '" +:+ category
                                  +:+ "' with timeframe '" +:+ timeframe
                                  +:+ "'.")) ])
  else lift (Models.format_recap result).

Definition search_news (query : string) (limit : Z) : M World value :=
  let limit := Z.max 1 (Z.min 5 limit) in
  _ ← _get_client;
  items ← on_client (Client.get_news upstream None (Some query) limit);
  lift (xs ← py_iter items; VList <$> for_each Models.truncate_news xs).

Definition get_categories : M World value :=
  _ ← _get_client;
  on_client (Client.get_categories upstream).

Definition get_news_item (id : string) : M World value :=
  _ ← _get_client;
  item ← on_client (Client.get_news_by_id upstream id);
  if is_None item then
    mret (VDict [ ("error", VStr ("News item '" +:+ id +:+ "' not found.")) ])
  else lift (Models.truncate_news item).

Definition get_enriched_news : M World value :=
  mret Models.enriched_news_payment_info.

Definition get_ticker_summary : M World value :=
  mret Models.ticker_summary_payment_info.

(** The body of the loop of [categories_resource]. *)
Definition render (lines : list string) (cat : value) : result (list string) :=
  recap ← py_get cat "recap_timeframe";
  let recap_info :=
    if truthy recap then " (recaps every " +:+ fmt recap +:+ ")"
    else " (no recaps)" in
  code ← py_getitem cat "code";
  name ← py_getitem cat "name";
  mret (lines ++ [ "- " +:+ fmt code +:+ ": " +:+ fmt name +:+ recap_info ])%list.

Definition categories_resource : M World string :=
  try_except
    (_ ← _get_client;
     cats ← on_client (Client.get_categories upstream);
     let lines := [ "Available Gloria AI news categories:" +:+ LF ] in
     lift (xs ← py_iter cats;
           lines ← for_loop render lines xs;
           mret (join LF lines)))
    (λ _, mret FALLBACK).

End Tools.

(** How [main] starts the server: [mcp.run()] on standard input and
    output, or [mcp.run(transport="streamable-http")] with the host and
    port it has put in [mcp.settings]. *)
Inductive launch : Type :=
| Stdio
| StreamableHttp (host : string) (port : Z).

Section EntryPoint.

(** [int(s)] of the interpreter. *)
Variable int_of : string → result Z.

Definition main : M World launch :=
  transport ← gets (λ w, default "stdio" (environ w !! "MCP_TRANSPORT"));
  if bool_decide (transport = "streamable-http") then
    text ← gets (λ w, default "8005" (environ w !! "MCP_PORT"));
    port ← lift (int_of text);
    mret (StreamableHttp "0.0.0.0" port)
  else mret Stdio.

End EntryPoint.

End Server.

(** ** Vocabulary of the statements *)

Module Spec.

(** The keys of [out] come in the order in which [item] has them. *)
Definition in_input_order (item out : dict) : Prop :=
  dict_keys out = filter (λ k, k ∈ dict_keys out) (dict_keys item).

(** The keys of [out] come in the order in which [fields] lists them. *)
Definition in_field_order (fields : list string) (out : dict) : Prop :=
  dict_keys out = filter (λ k, k ∈ dict_keys out) fields.

(** The [n]-th session of the process, as a client built for [base]
    opens it. *)
Definition fresh_session (n : nat) (base : string) : Client.AsyncClient :=
  {| Client.serial := n;
     Client.base_url := base;
     Client.timeout := 30%float;
     Client.is_closed := false |}.

(** Does the client hold a session that is open? *)
Definition has_open_session (c : Client.GloriaClient) : bool :=
  match Client._http c with
  | Some h => negb (Client.is_closed h)
  | None => false
  end.

(** The session the next request goes through: the one the client holds
    if that is open, the next one to be built otherwise. *)
Definition session_of (s : Client.Conn) : Client.AsyncClient :=
  match Client._http (Client.self s) with
  | Some h =>
      if Client.is_closed h
      then fresh_session (Client.built s) (Client._base_url (Client.self s))
      else h
  | None => fresh_session (Client.built s) (Client._base_url (Client.self s))
  end.

(** The client and the count of sessions once [_client()] has returned:
    the client holds the session of the next request, and one more session
    has been built unless the client held an open one. *)
Definition ready (s : Client.Conn) : Client.Conn :=
  {| Client.self := {| Client._base_url := Client._base_url (Client.self s);
                       Client._token := Client._token (Client.self s);
                       Client._http := Some (session_of s) |};
     Client.wire := Client.wire s;
     Client.built := if has_open_session (Client.self s) then Client.built s
                     else S (Client.built s) |}.

(** The call [_get(path, params)] hands to httpx. *)
Definition request_of (s : Client.Conn) (path : string)
    (params : option dict) : Client.Request :=
  {| Client.session := session_of s;
     Client.path := path;
     Client.params :=
       dict_set (default [] params) "token"
                (VStr (Client._token (Client.self s))) |}.

(** What [_get] makes of a reply. *)
Definition outcome (r : Client.Reply) : result value :=
  match r with
  | Client.NoReply => Raise TransportError
  | Client.Response status_code body =>
      if bool_decide (200 ≤ status_code < 300) then
        match body with
        | Some v => Ok v
        | None => Raise JSONDecodeError
        end
      else Raise (HTTPStatusError status_code)
  | Client.Undecodable status_code =>
      if bool_decide (200 ≤ status_code < 300) then Raise UnicodeDecodeError
      else Raise (HTTPStatusError status_code)
  end.

(** What [_get] returns for the call [rq] when the upstream would reply
    [r]: httpx refuses a path with a control character before anything is
    sent. *)
Definition answer (rq : Client.Request) (r : Client.Reply) : result value :=
  if Client.has_control (Client.path rq) then Raise InvalidURL else outcome r.

(** The query parameter a filter argument contributes: none for [None]
    and for the empty string, else the string itself under [name]. *)
Definition filter_param (name : string) (arg : option string) : dict :=
  match arg with
  | Some s => if decide (s = "") then [] else [ (name, VStr s) ]
  | None => []
  end.

(** A session after [aclose()]. *)
Definition closed (h : Client.AsyncClient) : Client.AsyncClient :=
  {| Client.serial := Client.serial h;
     Client.base_url := Client.base_url h;
     Client.timeout := Client.timeout h;
     Client.is_closed := true |}.

(** A call a user of [GloriaClient] can make. *)
Inductive call : Type :=
| GetNews (category keyword : option string) (limit : Z)
| GetNewsById (news_id : string)
| GetRecap (category timeframe : string)
| GetCategories
| Close.

Section Calls.

Variable upstream : list Client.Request → Client.Request → Client.Reply.

Definition perform (c : call) : M Client.Conn value :=
  match c with
  | GetNews category keyword limit =>
      Client.get_news upstream category keyword limit
  | GetNewsById news_id => Client.get_news_by_id upstream news_id
  | GetRecap category timeframe => Client.get_recap upstream category timeframe
  | GetCategories => Client.get_categories upstream
  | Close => _ ← Client.close; mret VNone
  end.


End Calls.

(** A session of a client built for [base], one of the first [n]. *)
Definition session_for (base : string) (n : nat) (h : Client.AsyncClient)
  : Prop :=
  Client.base_url h = base
  ∧ Client.timeout h = 30%float
  ∧ (Client.serial h < n)%nat.

(** What holds of a client built for [base] and [token], whatever was
    called on it: it still points at [base] with [token], the session it
    holds is one it opened, and every call went through a session it had
    opened, open at the time. *)
Definition consistent (base token : string) (s : Client.Conn) : Prop :=
  Client._base_url (Client.self s) = base
  ∧ Client._token (Client.self s) = token
  ∧ (∀ h, Client._http (Client.self s) = Some h →
          session_for base (Client.built s) h)
  ∧ (∀ rq, rq ∈ Client.wire s →
           session_for base (Client.built s) (Client.session rq)
           ∧ Client.is_closed (Client.session rq) = false).

(** The process can reach the upstream: it holds a client already, or
    the environment names a token. *)
Definition can_connect (w : Server.World) : Prop :=
  is_Some (Server._client w)
  ∨ default "" (Server.environ w !! "GLORIA_API_TOKEN") ≠ "".

(** The client [_get_client()] returns in such a process. *)
Definition client_of (w : Server.World) : Client.GloriaClient :=
  match Server._client w with
  | Some c => c
  | None =>
      Client.__init__
        (default "https://ai-hub.cryptobriefing.com"
                 (Server.environ w !! "AI_HUB_BASE_URL"))
        (default "" (Server.environ w !! "GLORIA_API_TOKEN"))
  end.

(** What a method of that client sees. *)
Definition conn_of (w : Server.World) : Client.Conn :=
  {| Client.self := client_of w;
     Client.wire := Server.wire w;
     Client.built := Server.built w |}.

(** The process after its client handed [rq] to httpx. *)
Definition sent (rq : Client.Request) (w : Server.World) : Server.World :=
  {| Server.environ := Server.environ w;
     Server._client := Some (Client.self (ready (conn_of w)));
     Server.wire := Server.wire w ++ [rq];
     Server.built := Client.built (ready (conn_of w)) |}.

(** [n] calls in a row, with the result of each. *)
Fixpoint attempts {A} (m : M Server.World A) (n : nat) (w : Server.World)
  : list (result A) * Server.World :=
  match n with
  | O => ([], w)
  | S n' =>
      let '(r, w') := m w in
      let '(rs, w'') := attempts m n' w' in
      (r :: rs, w'')
  end.

(** The configuration error of [_get_client]. *)
Definition missing_token : exn :=
  RuntimeError "GLORIA_API_TOKEN environment variable is required".

(** The first line of the categories resource. *)
Definition HEADER : string := "Available Gloria AI news categories:" +:+ LF.

(** A category record the renderer accepts: a dict with [code] and
    [name], whatever else it holds. *)
Definition renderable (cat : value) : Prop :=
  ∃ d, cat = VDict d
       ∧ is_Some (dict_get d "code")
       ∧ is_Some (dict_get d "name").

(** A process with a token and no client yet, and an upstream that
    answers every request with [200] and the JSON [body]. *)
Definition sample_world : Server.World :=
  {| Server.environ := {[ "GLORIA_API_TOKEN" := "secret" ]};
     Server._client := None;
     Server.wire := [];
     Server.built := 0 |}.

Definition sample_upstream (body : value)
  : list Client.Request → Client.Request → Client.Reply :=
  λ _ _, Client.Response 200 (Some body).

(** A process whose environment names no token. *)
Definition bare_world : Server.World :=
  {| Server.environ := ∅; Server._client := None; Server.wire := [];
     Server.built := 0 |}.

(** [n] slashes. *)
Fixpoint slashes (n : nat) : string :=
  match n with
  | O => ""
  | S n' => String "/" (slashes n')
  end.

(** The process with another environment. *)
Definition with_environ (env : gmap string string) (w : Server.World)
  : Server.World :=
  {| Server.environ := env;
     Server._client := Server._client w;
     Server.wire := Server.wire w;
     Server.built := Server.built w |}.

(** The line of the categories resource for a record whose [code], [name]
    and [recap_timeframe] are these strings. *)
Definition category_line (code name recap : string) : string :=
  "- " +:+ code +:+ ": " +:+ name
  +:+ (if decide (recap = "") then " (no recaps)"
       else " (recaps every " +:+ recap +:+ ")").

(** A category record with strings under [code], [name] and
    [recap_timeframe]. *)
Definition category_record (cat : value) (code name recap : string) : Prop :=
  ∃ d, cat = VDict d
       ∧ dict_get d "code" = Some (VStr code)
       ∧ dict_get d "name" = Some (VStr name)
       ∧ dict_get d "recap_timeframe" = Some (VStr recap).

(** A value that is no container: [None], a bool or a number. *)
Definition is_scalar (v : value) : bool :=
  match v with
  | VNone | VBool _ | VInt _ | VFloat _ => true
  | VStr _ | VList _ | VDict _ => false
  end.


(** What an invocation may do to the process: add at most one request
    to the wire, after those already there, and leave the environment
    alone. *)
Definition one_request_at_most {A} (m : M Server.World A) : Prop :=
  ∀ w, ∃ new,
    Server.wire (m w).2 = Server.wire w ++ new
    ∧ (length new ≤ 1)%nat
    ∧ Server.environ (m w).2 = Server.environ w.

(** An invocation of one of the tools that fetch. *)
Inductive invocation : Type :=
| LatestNews (category : option string) (limit : Z)
| NewsRecap (category timeframe : string)
| SearchNews (query : string) (limit : Z)
| Categories
| NewsItem (id : string).

Section Invocations.

Variable upstream : list Client.Request → Client.Request → Client.Reply.

Definition invoke (i : invocation) : M Server.World value :=
  match i with
  | LatestNews category limit => Server.get_latest_news upstream category limit
  | NewsRecap category timeframe =>
      Server.get_news_recap upstream category timeframe
  | SearchNews query limit => Server.search_news upstream query limit
  | Categories => Server.get_categories upstream
  | NewsItem id => Server.get_news_item upstream id
  end.


End Invocations.


(** Does httpx refuse the call behind the invocation?  Only the id of a
    news item goes into a path. *)
Definition refused (i : invocation) : bool :=
  match i with
  | NewsItem id => Client.has_control id
  | LatestNews _ _ | NewsRecap _ _ | SearchNews _ _ | Categories => false
  end.


(** A JSON value that is a dict. *)
Definition is_dict (v : value) : Prop := ∃ d, v = VDict d.

End Spec.

(** * Properties *)

(** ** Dictionaries *)

Section DictFacts.

Implicit Types (d acc : dict) (k : string) (v : value).

Lemma dict_get_None d k : dict_get d k = None ↔ k ∉ dict_keys d.
Proof.
  unfold dict_keys. induction d as [|[k' v'] d IH]; simpl.
  - split; [intros _; apply not_elem_of_nil | done].
  - rewrite not_elem_of_cons. case_decide; subst.
    + split; [done | intros [? _]; done].
    + rewrite IH. split; [intros ?; split; [congruence | done] | intros [_ ?]; done].
Qed.

Lemma dict_get_is_Some d k : is_Some (dict_get d k) ↔ k ∈ dict_keys d.
Proof.
  rewrite <- not_eq_None_Some, dict_get_None.
  split; [apply dec_stable | auto].
Qed.

Lemma dict_set_fresh d k v :
  k ∉ dict_keys d → dict_set d k v = d ++ [(k, v)].
Proof.
  unfold dict_keys. induction d as [|[k' v'] d IH]; simpl; [done|].
  rewrite not_elem_of_cons. intros [Hne Hnotin].
  case_decide; [congruence|]. by rewrite IH.
Qed.


End DictFacts.

(** ** The response shapers *)

Section Shapers.

Import Models.

Implicit Types (d acc : dict) (k : string) (v : value).

(** The entries the comprehension keeps, in the order it visits them. *)
Local Abbreviation kept d fields :=
  (omap (λ k : string, pair k <$> dict_get d k) fields).

Lemma kept_keys d fields :
  dict_keys (kept d fields)
  = filter (λ k, k ∈ dict_keys d) fields.
Proof.
  unfold dict_keys. induction fields as [|k fields IH]; csimpl; [done|].
  rewrite filter_cons. destruct (dict_get d k) as [v|] eqn:Hk; csimpl.
  - rewrite decide_True by (apply dict_get_is_Some; eauto).
    by rewrite IH.
  - rewrite decide_False by (by apply dict_get_None). done.
Qed.

Lemma kept_get d fields k :
  dict_get (kept d fields) k
  = if decide (k ∈ fields) then dict_get d k else None.
Proof.
  induction fields as [|k' fields IH]; csimpl; [done|].
  destruct (dict_get d k') as [v'|] eqn:Hk'; csimpl.
  - destruct (decide (k' = k)) as [->|Hne].
    + by rewrite decide_True by apply list_elem_of_here.
    + rewrite IH. destruct (decide (k ∈ fields)) as [Hin|Hnin].
      * by rewrite decide_True by (by apply list_elem_of_further).
      * rewrite decide_False; [done|]. rewrite elem_of_cons. by intros [?|?].
  - rewrite IH. destruct (decide (k ∈ fields)) as [Hin|Hnin].
    + by rewrite decide_True by (by apply list_elem_of_further).
    + destruct (decide (k = k')) as [->|Hne].
      * by rewrite decide_True by apply list_elem_of_here.
      * rewrite decide_False; [done|]. rewrite elem_of_cons. by intros [?|?].
Qed.

(** On a dict the comprehension never raises, and with distinct fields
    every assignment adds a new last entry. *)
Lemma project_dict d fields acc :
  NoDup fields →
  (∀ k, k ∈ fields → k ∉ dict_keys acc) →
  project fields (VDict d) acc = Ok (acc ++ kept d fields).
Proof.
  revert acc. induction fields as [|k fields IH]; intros acc Hnd Hfresh; simpl.
  - by rewrite app_nil_r.
  - apply NoDup_cons in Hnd as [Hk Hnd].
    unfold dict_contains. destruct (dict_get d k) as [v|] eqn:Hget; simpl.
    + rewrite dict_set_fresh by (apply Hfresh, list_elem_of_here).
      rewrite IH; [by rewrite <- app_assoc | done |].
      intros k' Hk'. unfold dict_keys. rewrite fmap_app, elem_of_app.
      csimpl. rewrite list_elem_of_singleton. intros [Hin | ->]; [|done].
      by eapply Hfresh; [apply list_elem_of_further|].
    + apply IH; [done|]. eauto using list_elem_of_further.
Qed.

Lemma filter_elem_of_ext (P : string → Prop) `{∀ k, Decision (P k)}
    (l l' : list string) :
  (∀ k, k ∈ l → k ∈ l' ↔ P k) →
  filter (λ k, k ∈ l') l = filter P l.
Proof.
  induction l as [|k l IH]; intros Hiff; [done|].
  rewrite !filter_cons.
  rewrite IH by (intros; apply Hiff; by apply list_elem_of_further).
  pose proof (Hiff k (list_elem_of_here _ _)) as Hk.
  destruct (decide (k ∈ l')), (decide (P k)); tauto.
Qed.

Lemma FREE_NEWS_FIELDS_NoDup : NoDup FREE_NEWS_FIELDS.
Proof. apply (bool_decide_unpack _). by vm_compute. Qed.

Lemma truncate_news_dict d :
  truncate_news (VDict d) = Ok (VDict (kept d FREE_NEWS_FIELDS)).
Proof.
  unfold truncate_news.
  rewrite project_dict; [done | apply FREE_NEWS_FIELDS_NoDup |].
  intros k _. apply not_elem_of_nil.
Qed.

(** C1. On every news item dict, [truncate_news] returns, without raising,
    a mapping whose key set is the item's key set intersected with the ten
    fields [id], [signal], [sentiment], [sentiment_value], [timestamp],
    [feed_categories], [sources], [author], [tokens] and [tweet_url]; every
    surviving key carries the item's value, and a key the item lacks is
    absent from the result. *)
Theorem truncate_news_allow_list d :
  ∃ out : dict,
    truncate_news (VDict d) = Ok (VDict out)
    ∧ NoDup (dict_keys out)
    ∧ key_set out
      = key_set d
        ∩ {[ "id"; "signal"; "sentiment"; "sentiment_value"; "timestamp";
             "feed_categories"; "sources"; "author"; "tokens"; "tweet_url" ]}
    ∧ (∀ k, k ∈ key_set out → dict_get out k = dict_get d k)
    ∧ (∀ k, k ∉ key_set d → dict_get out k = None).
Proof.
  exists (kept d FREE_NEWS_FIELDS). split; [apply truncate_news_dict|].
  unfold key_set. rewrite kept_keys. repeat split.
  - apply NoDup_filter, FREE_NEWS_FIELDS_NoDup.
  - apply set_eq. intros k.
    rewrite elem_of_intersection, !elem_of_list_to_set, list_elem_of_filter.
    rewrite !elem_of_union, !elem_of_singleton.
    unfold FREE_NEWS_FIELDS. rewrite !elem_of_cons, elem_of_nil. tauto.
  - intros k. rewrite elem_of_list_to_set, list_elem_of_filter.
    intros [_ Hin]. rewrite kept_get. by rewrite decide_True.
  - intros k. rewrite elem_of_list_to_set, <- dict_get_None.
    intros Hk. rewrite kept_get. by case_decide.
Qed.

(** The claim of C2 fails on order: an item that carries [signal] before
    [id] comes back with [id] before [signal]. *)
Lemma truncate_news_reorders :
  ∃ out : dict,
    truncate_news (VDict [ ("signal", VStr "x"); ("id", VInt 7) ])
    = Ok (VDict out)
    ∧ ¬ Spec.in_input_order [ ("signal", VStr "x"); ("id", VInt 7) ] out.
Proof.
  eexists. split; [reflexivity|].
  unfold Spec.in_input_order. vm_compute. discriminate.
Qed.

(** C2, amended. The free-tier view is a field projection of the item:
    every entry of the result is an entry of the item, key and value
    untouched, and the surviving keys come in the order of the allow-list,
    whatever their order in the item. *)
Theorem truncate_news_projection d :
  ∃ out : dict,
    truncate_news (VDict d) = Ok (VDict out)
    ∧ (∀ k v, (k, v) ∈ out → dict_get d k = Some v)
    ∧ Spec.in_field_order FREE_NEWS_FIELDS out
    ∧ dict_keys out = filter (λ k, k ∈ dict_keys d) FREE_NEWS_FIELDS.
Proof.
  exists (kept d FREE_NEWS_FIELDS). split; [apply truncate_news_dict|].
  repeat split.
  - intros k v. rewrite list_elem_of_omap. intros (k' & _ & Hk').
    destruct (dict_get d k') as [v'|] eqn:Hget; [|done].
    by injection Hk' as -> ->.
  - unfold Spec.in_field_order. rewrite kept_keys.
    symmetry. apply filter_elem_of_ext. intros k Hk.
    rewrite list_elem_of_filter. tauto.
  - apply kept_keys.
Qed.

(** C3. On every recap dict, [format_recap] returns, without raising, a
    mapping with exactly the keys [feed_category], [timeframe], [recap] and
    [created_at]; each carries the record's value, or [None] where the
    record has no such key. *)
Theorem format_recap_four_keys d :
  ∃ out : dict,
    format_recap (VDict d) = Ok (VDict out)
    ∧ dict_keys out = [ "feed_category"; "timeframe"; "recap"; "created_at" ]
    ∧ (∀ k, k ∈ dict_keys out →
            dict_get out k = Some (default VNone (dict_get d k)))
    ∧ (∀ k, k ∈ dict_keys out → k ∉ dict_keys d → dict_get out k = Some VNone).
Proof.
  eexists. split; [reflexivity|]. split; [reflexivity|].
  assert (∀ k, k ∈ [ "feed_category"; "timeframe"; "recap"; "created_at" ] →
    dict_get [ ("feed_category", default VNone (dict_get d "feed_category"));
               ("timeframe", default VNone (dict_get d "timeframe"));
               ("recap", default VNone (dict_get d "recap"));
               ("created_at", default VNone (dict_get d "created_at")) ] k
    = Some (default VNone (dict_get d k))) as Hget.
  { intros k Hk. repeat (apply elem_of_cons in Hk as [->|Hk]; [reflexivity|]).
    by apply elem_of_nil in Hk. }
  split; [exact Hget|].
  intros k Hk Hnotin. rewrite Hget by done.
  apply dict_get_None in Hnotin. by rewrite Hnotin.
Qed.

End Shapers.

(** ** Running a state-and-exception computation *)

Lemma M_bind_run {S A B} (m : M S A) (f : A → M S B) (s : S) :
  (m ≫= f) s
  = match m s with
    | (Ok a, s') => f a s'
    | (Raise e, s') => (Raise e, s')
    end.
Proof. reflexivity. Qed.

Lemma result_bind_Ok {A B} (f : A → result B) (a : A) : Ok a ≫= f = f a.
Proof. reflexivity. Qed.

(** ** Paths httpx accepts *)

Lemma has_control_app (a b : string) :
  Client.has_control (a +:+ b) = Client.has_control a || Client.has_control b.
Proof.
  induction a as [|c a IH]; [done|].
  change (String c a +:+ b) with (String c (a +:+ b)).
  cbn [Client.has_control]. by rewrite IH, orb_assoc.
Qed.

Lemma answer_accepted (rq : Client.Request) (r : Client.Reply) :
  Client.has_control (Client.path rq) = false →
  Spec.answer rq r = Spec.outcome r.
Proof. unfold Spec.answer. by intros ->. Qed.

Lemma answer_refused (rq : Client.Request) (r : Client.Reply) :
  Client.has_control (Client.path rq) = true →
  Spec.answer rq r = Raise InvalidURL.
Proof. unfold Spec.answer. by intros ->. Qed.

Lemma news_item_path (id : string) :
  Client.has_control ("/news/" +:+ id) = Client.has_control id.
Proof. by rewrite has_control_app. Qed.

(** ** The API client *)

Section ClientFacts.

Import Client.

Variable upstream : list Request → Request → Reply.

Implicit Types (s : Conn) (c : GloriaClient) (h : AsyncClient).

Lemma _client_eq s :
  _client s = (Ok (Spec.session_of s), Spec.ready s).
Proof.
  destruct s as [[base token [[n b t []]|]] sent m]; reflexivity.
Qed.

Lemma session_of_open s : is_closed (Spec.session_of s) = false.
Proof. by destruct s as [[base token [[n b t []]|]] sent m]. Qed.

(** One call of [_get] is one GET handed to httpx, on an open session,
    and its result is what httpx and the reply make of it. *)
Lemma _get_eq path params s :
  _get upstream path params s
  = (Spec.answer (Spec.request_of s path params)
       (upstream (wire s) (Spec.request_of s path params)),
     send (Spec.request_of s path params) (Spec.ready s)).
Proof.
  unfold _get. rewrite M_bind_run, _client_eq.
  assert (match params with
          | Some (kv :: d) => kv :: d
          | Some [] | None => []
          end = default [] params) as -> by (by destruct params as [[|]|]).
  unfold AsyncClient_get, raise_for_status, json, Spec.request_of,
    Spec.answer, Spec.outcome.
  unfold mbind, M_bind, mret, M_ret, gets, modify, raise.
  cbn -[Spec.session_of dict_set has_control]. rewrite session_of_open.
  destruct (has_control path); [done|].
  destruct (upstream _ _) as [|code [v|]|code];
    cbn -[Spec.session_of dict_set]; [done | by case_bool_decide..].
Qed.

Lemma close_eq s :
  close s
  = (Ok tt,
     match _http (self s) with
     | Some h => if is_closed h then s else set_http (Some (Spec.closed h)) s
     | None => s
     end).
Proof. by destruct s as [[base token [[n b t []]|]] sent m]. Qed.

(** A call either closes or hands one GET to httpx. *)
Lemma perform_state (c : Spec.call) s :
  (Spec.perform upstream c s).2 = (close s).2
  ∨ ∃ path params,
      (Spec.perform upstream c s).2
      = send (Spec.request_of s path params) (Spec.ready s).
Proof.
  destruct c; cbn [Spec.perform];
    unfold get_news, get_news_by_id, get_recap, get_categories;
    try (right; do 2 eexists; by rewrite _get_eq).
  left. unfold mbind, M_bind. by rewrite close_eq.
Qed.

Lemma session_for_mono base n m h :
  (n ≤ m)%nat → Spec.session_for base n h → Spec.session_for base m h.
Proof. intros Hle (? & ? & ?). repeat split; [done..|lia]. Qed.

Lemma built_ready s : (built s ≤ built (Spec.ready s))%nat.
Proof. cbn. destruct (Spec.has_open_session _); lia. Qed.

Lemma session_of_consistent base token s :
  Spec.consistent base token s →
  Spec.session_for base (built (Spec.ready s)) (Spec.session_of s).
Proof.
  intros (Hbase & _ & Hhttp & _).
  unfold Spec.session_of, Spec.ready, Spec.has_open_session. cbn.
  rewrite Hbase. destruct (_http (self s)) as [h|] eqn:Hh.
  - destruct (Hhttp h eq_refl) as (Hb & Ht & Hn).
    destruct (is_closed h); repeat split; cbn; try done; lia.
  - repeat split; cbn; try done; lia.
Qed.

Lemma consistent_ready base token s rq :
  Spec.consistent base token s →
  Client.session rq = Spec.session_of s →
  Spec.consistent base token (send rq (Spec.ready s)).
Proof.
  intros Hs Hrq. pose proof (session_of_consistent _ _ _ Hs) as Hsess.
  destruct Hs as (Hbase & Htoken & Hhttp & Hwire).
  split; [done|]. split; [done|]. split.
  - cbn -[Spec.session_of]. intros h [= <-]. apply Hsess.
  - cbn -[Spec.session_of Spec.ready].
    intros rq' [Hin | ->%list_elem_of_singleton]%elem_of_app.
    + split; [|by apply Hwire].
      eapply session_for_mono; [apply built_ready | by apply Hwire].
    + rewrite Hrq. split; [done | apply session_of_open].
Qed.

Lemma consistent_perform base token (c : Spec.call) s :
  Spec.consistent base token s →
  Spec.consistent base token (Spec.perform upstream c s).2.
Proof.
  intros Hs.
  destruct (perform_state c s) as [-> | (path & params & ->)];
    [|by apply consistent_ready].
  destruct Hs as (Hbase & Htoken & Hhttp & Hwire).
  rewrite close_eq. cbn [snd].
  destruct (_http (self s)) as [h|] eqn:Hh;
    [|split; [done|]; split; [done|]; split; [by rewrite Hh | done]].
  destruct (is_closed h) eqn:Hclosed;
    [split; [done|]; split; [done|]; split; [by rewrite Hh | done]|].
  split; [done|]. split; [done|]. split; [|done].
  cbn. intros h' [= <-]. by destruct (Hhttp h eq_refl) as (? & ? & ?).
Qed.

Lemma consistent_close base token s :
  Spec.consistent base token s → Spec.consistent base token (close s).2.
Proof.
  intros Hs. apply (consistent_perform _ _ Spec.Close) in Hs.
  cbn [Spec.perform] in Hs. unfold mbind, M_bind in Hs.
  by rewrite close_eq in *.
Qed.



Lemma get_news_params category keyword limit :
  (let params := [ ("limit", VInt limit); ("page", VInt 1) ] in
   let params :=
     if truthy (of_optional category)
     then dict_set params "feed_categories" (of_optional category)
     else params in
   if truthy (of_optional keyword)
   then dict_set params "keyword" (of_optional keyword)
   else params)
  = [ ("limit", VInt limit); ("page", VInt 1) ]
    ++ Spec.filter_param "feed_categories" category
    ++ Spec.filter_param "keyword" keyword.
Proof.
  destruct category as [c|], keyword as [k|]; cbn;
    repeat (case_decide; cbn); done.
Qed.

Lemma get_news_eq category keyword limit s :
  get_news upstream category keyword limit s
  = _get upstream "/news"
      (Some ([ ("limit", VInt limit); ("page", VInt 1) ]
             ++ Spec.filter_param "feed_categories" category
             ++ Spec.filter_param "keyword" keyword)) s.
Proof. unfold get_news. by rewrite get_news_params. Qed.






End ClientFacts.

(** ** The tool registry *)

Section ServerFacts.

Import Server.

Variable upstream : list Client.Request → Client.Request → Client.Reply.
Variable str_of : value → string.

Implicit Types (w : World).

Lemma _get_client_ok w :
  Spec.can_connect w →
  _get_client w = (Ok tt, set_client (Some (Spec.client_of w)) w).
Proof.
  unfold Spec.can_connect, Spec.client_of, _get_client.
  destruct w as [env [c|] sent]; cbn.
  - done.
  - intros [[? [=]] | Htoken].
    unfold mbind, M_bind, gets. cbn.
    by rewrite bool_decide_eq_false_2.
Qed.

Lemma _get_client_missing w :
  _client w = None →
  default "" (environ w !! "GLORIA_API_TOKEN") = "" →
  _get_client w
  = (Raise (RuntimeError "GLORIA_API_TOKEN environment variable is required"),
     w).
Proof.
  destruct w as [env [c|] sent]; cbn; [done|]. intros _ Htoken.
  unfold _get_client, mbind, M_bind, gets. cbn. by rewrite Htoken.
Qed.

(** With a client at hand, one [_get] through it is one GET handed to
    httpx. *)
Lemma fetch_eq path ps w :
  Spec.can_connect w →
  (_ ← _get_client; on_client (Client._get upstream path ps)) w
  = (Spec.answer (Spec.request_of (Spec.conn_of w) path ps)
       (upstream (wire w) (Spec.request_of (Spec.conn_of w) path ps)),
     Spec.sent (Spec.request_of (Spec.conn_of w) path ps) w).
Proof.
  intros Hc. unfold mbind at 1, M_bind at 1. rewrite _get_client_ok by done.
  unfold on_client. cbn [set_client _client wire environ built].
  fold (Spec.conn_of w). rewrite _get_eq. done.
Qed.

Lemma fetch_then {A} path ps (k : value → M World A) w :
  Spec.can_connect w →
  (_ ← _get_client; x ← on_client (Client._get upstream path ps); k x) w
  = let rq := Spec.request_of (Spec.conn_of w) path ps in
    match Spec.answer rq (upstream (wire w) rq) with
    | Ok v => k v (Spec.sent rq w)
    | Raise e => (Raise e, Spec.sent rq w)
    end.
Proof.
  intros Hc. pose proof (fetch_eq path ps w Hc) as Hfetch.
  unfold mbind, M_bind in *.
  destruct (_get_client w) as [[[]|e] w'].
  - by rewrite Hfetch.
  - by injection Hfetch as <- <-.
Qed.

Lemma no_client_then {A} (k : unit → M World A) w :
  _client w = None →
  default "" (environ w !! "GLORIA_API_TOKEN") = "" →
  (x ← _get_client; k x) w
  = (Raise (RuntimeError "GLORIA_API_TOKEN environment variable is required"),
     w).
Proof.
  intros Hnone Htoken. unfold mbind, M_bind.
  by rewrite _get_client_missing.
Qed.

(** Two methods that do the same make the same tool. *)
Lemma tool_ext {A} (m1 m2 : M Client.Conn value) (k : value → M World A) w :
  (∀ s, m1 s = m2 s) →
  (_ ← _get_client; x ← on_client m1; k x) w
  = (_ ← _get_client; x ← on_client m2; k x) w.
Proof.
  intros Hext. unfold mbind, M_bind, on_client.
  destruct (_get_client w) as [[[]|e] w']; [|done].
  destruct (_client w') as [c|]; [|done]. by rewrite Hext.
Qed.




Lemma attempts_same {A} (m : M World A) (r : result A) n w :
  m w = (r, w) → Spec.attempts m n w = (replicate n r, w).
Proof.
  intros Hm. induction n as [|n IH]; [done|].
  cbn [Spec.attempts replicate]. by rewrite Hm, IH.
Qed.

(** What a tool makes of a reply to a GET that httpx let through. *)
Lemma fetch_accepted {A} path ps (k : value → M World A) w :
  Spec.can_connect w →
  Client.has_control path = false →
  (_ ← _get_client; x ← on_client (Client._get upstream path ps); k x) w
  = let rq := Spec.request_of (Spec.conn_of w) path ps in
    match Spec.outcome (upstream (wire w) rq) with
    | Ok v => k v (Spec.sent rq w)
    | Raise e => (Raise e, Spec.sent rq w)
    end.
Proof.
  intros Hc Hpath. rewrite fetch_then by done. cbn zeta.
  by rewrite answer_accepted.
Qed.

(** A path with a control character: httpx refuses it, whatever the
    upstream would have said. *)
Lemma fetch_refused {A} path ps (k : value → M World A) w :
  Spec.can_connect w →
  Client.has_control path = true →
  (_ ← _get_client; x ← on_client (Client._get upstream path ps); k x) w
  = (Raise InvalidURL,
     Spec.sent (Spec.request_of (Spec.conn_of w) path ps) w).
Proof.
  intros Hc Hpath. rewrite fetch_then by done. cbn zeta.
  by rewrite answer_refused.
Qed.


(** C6. [get_enriched_news] and [get_ticker_summary] take no argument,
    leave the process as it was (no client is built, nothing is sent) and
    return the same payment-info mapping in every process, however often
    they are called. *)
Theorem paid_tools_are_static n w w' :
  get_enriched_news w = (Ok Models.enriched_news_payment_info, w)
  ∧ get_ticker_summary w = (Ok Models.ticker_summary_payment_info, w)
  ∧ (get_enriched_news w).1 = (get_enriched_news w').1
  ∧ (get_ticker_summary w).1 = (get_ticker_summary w').1
  ∧ Spec.attempts get_enriched_news n w
    = (replicate n (Ok Models.enriched_news_payment_info), w)
  ∧ Spec.attempts get_ticker_summary n w
    = (replicate n (Ok Models.ticker_summary_payment_info), w).
Proof.
  repeat split; by apply attempts_same.
Qed.

(** C8. With no [GLORIA_API_TOKEN] in the environment and no client built
    yet, [_get_client] raises the configuration error and leaves the
    process as it was: no client is built and nothing is sent.  Every tool
    that needs the client raises the same error instead of returning a
    payload, and so does every further attempt. *)
Theorem missing_token_is_fatal (category : option string)
    (topic timeframe query id : string) (limit : Z) (n : nat) w :
  _client w = None →
  environ w !! "GLORIA_API_TOKEN" = None →
  _get_client w = (Raise Spec.missing_token, w)
  ∧ get_latest_news upstream category limit w = (Raise Spec.missing_token, w)
  ∧ get_news_recap upstream topic timeframe w
    = (Raise Spec.missing_token, w)
  ∧ search_news upstream query limit w = (Raise Spec.missing_token, w)
  ∧ get_categories upstream w = (Raise Spec.missing_token, w)
  ∧ get_news_item upstream id w = (Raise Spec.missing_token, w)
  ∧ Spec.attempts _get_client n w
    = (replicate n (Raise Spec.missing_token), w).
Proof.
  intros Hnone Habsent.
  assert (default "" (environ w !! "GLORIA_API_TOKEN") = "") as Htoken
    by (by rewrite Habsent).
  pose proof (_get_client_missing w Hnone Htoken) as Hget.
  repeat split; try (by apply no_client_then); [done|].
  by apply attempts_same.
Qed.

Lemma for_loop_raises {A B} (body : B → A → result B) x xs acc :
  x ∈ xs →
  (∀ acc, ∃ e, body acc x = Raise e) →
  ∃ e, for_loop body acc xs = Raise e.
Proof.
  intros Hin Hx. revert acc.
  induction xs as [|y xs IH]; intros acc; [by apply elem_of_nil in Hin|].
  cbn. apply elem_of_cons in Hin as [<- | Hin].
  - destruct (Hx acc) as [e ->]. by exists e.
  - destruct (body acc y) as [acc'|e]; cbn; [by apply IH|by exists e].
Qed.

Lemma render_malformed lines d :
  "code" ∉ dict_keys d ∨ "name" ∉ dict_keys d →
  ∃ e, render str_of lines (VDict d) = Raise e.
Proof.
  unfold render. cbn. intros [Hk | Hk]; apply dict_get_None in Hk.
  - rewrite Hk. by eexists.
  - rewrite Hk. destruct (dict_get d "code"); by eexists.
Qed.

Lemma render_renderable lines d code name :
  dict_get d "code" = Some code →
  dict_get d "name" = Some name →
  render str_of lines (VDict d)
  = Ok (lines
        ++ [ "- " +:+ fmt str_of code +:+ ": " +:+ fmt str_of name
             +:+ (if truthy (default VNone (dict_get d "recap_timeframe"))
                  then " (recaps every "
                       +:+ fmt str_of
                             (default VNone (dict_get d "recap_timeframe"))
                       +:+ ")"
                  else " (no recaps)") ]).
Proof.
  intros Hcode Hname. unfold render. cbn. by rewrite Hcode, Hname.
Qed.

Lemma for_loop_renderable cats lines :
  Forall Spec.renderable cats →
  ∃ new,
    for_loop (render str_of) lines cats = Ok (lines ++ new)
    ∧ Forall2 (λ cat line, ∃ d code name suffix,
                 cat = VDict d
                 ∧ dict_get d "code" = Some code
                 ∧ dict_get d "name" = Some name
                 ∧ line = "- " +:+ fmt str_of code +:+ ": "
                          +:+ fmt str_of name +:+ suffix
                 ∧ (dict_get d "recap_timeframe" = None
                    ∨ dict_get d "recap_timeframe" = Some VNone →
                    suffix = " (no recaps)")
                 ∧ (∀ r, dict_get d "recap_timeframe" = Some r →
                         suffix = if truthy r
                                  then " (recaps every " +:+ fmt str_of r
                                       +:+ ")"
                                  else " (no recaps)"))
              cats new.
Proof.
  intros Hall. revert lines.
  induction Hall as [|cat cats (d & -> & [code Hcode] & [name Hname]) _ IH];
    intros lines.
  - exists []. by rewrite app_nil_r.
  - cbn [for_loop]. rewrite (render_renderable _ _ code name) by done.
    rewrite result_bind_Ok.
    destruct (IH (lines ++ [ "- " +:+ fmt str_of code +:+ ": "
                             +:+ fmt str_of name
                             +:+ (if truthy (default VNone
                                               (dict_get d "recap_timeframe"))
                                  then " (recaps every "
                                       +:+ fmt str_of
                                             (default VNone
                                                (dict_get d "recap_timeframe"))
                                       +:+ ")"
                                  else " (no recaps)") ]))
      as (new & -> & Hnew).
    eexists (_ :: new). rewrite <- app_assoc. split; [done|].
    constructor; [|done]. exists d, code, name. eexists.
    split; [done|]. split; [done|]. split; [done|]. split; [done|].
    split.
    + by intros [-> | ->].
    + by intros r ->.
Qed.

(** The resource is the tool [get_categories] followed by the rendering,
    with the fallback for whatever either raises. *)
Lemma categories_resource_eq w :
  categories_resource upstream str_of w
  = (match (get_categories upstream w).1 with
     | Ok cats =>
         match (xs ← py_iter cats;
                lines ← for_loop (render str_of) [ Spec.HEADER ] xs;
                mret (join LF lines)) with
         | Ok text => Ok text
         | Raise _ => Ok FALLBACK
         end
     | Raise _ => Ok FALLBACK
     end,
     (get_categories upstream w).2).
Proof.
  unfold categories_resource, get_categories, try_except.
  rewrite !M_bind_run.
  destruct (_get_client w) as [[[]|e] w']; [|done].
  rewrite M_bind_run.
  destruct (on_client _ w') as [[cats|e] w'']; [|done].
  unfold lift, Spec.HEADER. cbn [fst snd].
  by destruct (_ ≫= _).
Qed.

(** C10. [categories_resource] never raises.  It returns the fallback
    string when fetching the categories raises, and also when the fetched
    list holds a record without [code] or without [name].  A list of
    records that have both is rendered, one line per record, whatever each
    holds under [recap_timeframe]: the line of a record whose
    [recap_timeframe] is missing or [None] ends in [" (no recaps)"], next
    to the lines of the records that name a cadence. *)
Theorem categories_resource_degrades w :
  (∃ text, (categories_resource upstream str_of w).1 = Ok text)
  ∧ (∀ e, (get_categories upstream w).1 = Raise e →
          (categories_resource upstream str_of w).1 = Ok FALLBACK)
  ∧ (∀ cats d,
       (get_categories upstream w).1 = Ok (VList cats) →
       VDict d ∈ cats →
       "code" ∉ dict_keys d ∨ "name" ∉ dict_keys d →
       (categories_resource upstream str_of w).1 = Ok FALLBACK)
  ∧ (∀ cats,
       (get_categories upstream w).1 = Ok (VList cats) →
       Forall Spec.renderable cats →
       ∃ lines,
         (categories_resource upstream str_of w).1
         = Ok (join LF (Spec.HEADER :: lines))
         ∧ Forall2 (λ cat line, ∃ d code name suffix,
                      cat = VDict d
                      ∧ dict_get d "code" = Some code
                      ∧ dict_get d "name" = Some name
                      ∧ line = "- " +:+ fmt str_of code +:+ ": "
                               +:+ fmt str_of name +:+ suffix
                      ∧ (dict_get d "recap_timeframe" = None
                         ∨ dict_get d "recap_timeframe" = Some VNone →
                         suffix = " (no recaps)")
                      ∧ (∀ r, dict_get d "recap_timeframe" = Some r →
                              suffix = if truthy r
                                       then " (recaps every "
                                            +:+ fmt str_of r +:+ ")"
                                       else " (no recaps)"))
                   cats lines).
Proof.
  rewrite categories_resource_eq. cbn [fst]. repeat split.
  - destruct (get_categories upstream w).1 as [cats|e]; [|by eexists].
    destruct (_ ≫= _); by eexists.
  - by intros e ->.
  - intros cats d -> Hin Hbad. cbn.
    destruct (for_loop_raises (render str_of) (VDict d) cats [ Spec.HEADER ])
      as [e ->]; [done | | done].
    intros acc. by apply render_malformed.
  - intros cats -> Hall. cbn [py_iter]. rewrite result_bind_Ok.
    destruct (for_loop_renderable cats [ Spec.HEADER ] Hall)
      as (new & -> & Hnew).
    by exists new.
Qed.

End ServerFacts.

(** ** More on the API client *)

Section ClientMore.

Import Client.

Variable upstream : list Request → Request → Reply.

Lemma rstrip_split s : ∃ n, s = rstrip s "/" +:+ Spec.slashes n.
Proof.
  induction s as [|a s [n IH]]; [by exists O|].
  cbn [rstrip]. destruct (rstrip s "/") as [|b r] eqn:Hr.
  - cbn in IH. case_decide; subst.
    + by exists (S n).
    + by exists n.
  - exists n. by rewrite IH at 1.
Qed.

Lemma rstrip_no_slash s t : rstrip s "/" ≠ t +:+ "/".
Proof.
  revert t. induction s as [|a s IH]; intros t; cbn [rstrip].
  - by destruct t.
  - destruct (rstrip s "/") as [|b r] eqn:Hr.
    + case_decide; destruct t as [|c [|? ?]]; unfold String.append;
        congruence.
    + destruct t as [|c t]; unfold String.append; [congruence|].
      intros [= -> Ht]. by apply (IH t).
Qed.

Lemma rstrip_fixed s : (∀ t, s ≠ t +:+ "/") → rstrip s "/" = s.
Proof.
  induction s as [|a s IH]; intros Hs; [done|].
  cbn [rstrip]. rewrite IH.
  - destruct s; [|done]. rewrite decide_False; [done|].
    intros ->. by apply (Hs "").
  - intros t ->. by apply (Hs (String a t)).
Qed.

(** X1. A client keeps its base URL without the trailing slashes: the
    URL it was given is the stored one followed by slashes only, the
    stored one does not end in a slash, and building a client from the
    stored URL changes nothing. *)
Theorem base_url_is_stripped base token :
  (∃ n, base = _base_url (__init__ base token) +:+ Spec.slashes n)
  ∧ (∀ t, _base_url (__init__ base token) ≠ t +:+ "/")
  ∧ __init__ (_base_url (__init__ base token)) token = __init__ base token.
Proof.
  cbn. split; [apply rstrip_split|]. split; [apply rstrip_no_slash|].
  unfold __init__. by rewrite rstrip_fixed by apply rstrip_no_slash.
Qed.

End ClientMore.

(** ** More on the response shapers *)

Section ShapersMore.

Import Models.

Implicit Types (d acc : dict) (k : string) (v item : value).

(** On anything but a dict the comprehension finds no field and keeps
    what it has, or fails on the first one it finds. *)
Lemma project_other fields item acc :
  (∀ d, item ≠ VDict d) →
  project fields item acc = Ok acc
  ∨ project fields item acc = Raise TypeError.
Proof.
  intros Hitem. induction fields as [|k fields IH]; [by left|].
  cbn [project]. destruct item as [| | | |s|l|d]; cbn; try (by right).
  - destruct (str_contains k s); [by right | done].
  - destruct (existsb _ l); [by right | done].
  - by destruct (Hitem d).
Qed.

Lemma project_scalar fields item acc :
  Spec.is_scalar item = true →
  fields ≠ [] →
  project fields item acc = Raise TypeError.
Proof. by destruct fields, item. Qed.

Lemma truncate_news_other item :
  (∀ d, item ≠ VDict d) →
  truncate_news item = Ok (VDict []) ∨ truncate_news item = Raise TypeError.
Proof.
  intros Hitem. unfold truncate_news.
  by destruct (project_other FREE_NEWS_FIELDS item [] Hitem) as [-> | ->];
    [left | right].
Qed.

Lemma truncate_news_raises item e :
  truncate_news item = Raise e → e = TypeError.
Proof.
  destruct item as [| | | |s|l|d];
    try (by (intros Hr;
             match type of Hr with
             | truncate_news ?x = _ =>
                 destruct (truncate_news_other x) as [Heq | Heq];
                 [done | congruence..]
             end)).
  by rewrite truncate_news_dict.
Qed.

(** X8. [truncate_news] fails in one way only: whatever it is given, it
    never raises [KeyError], only [TypeError]; it raises that on [None], a
    bool and a number; and what it returns for anything but a dict is the
    empty dict. *)
Theorem truncate_news_fails_with_TypeError item :
  (∀ e, truncate_news item = Raise e → e = TypeError)
  ∧ (Spec.is_scalar item = true → truncate_news item = Raise TypeError)
  ∧ (∀ out, truncate_news item = Ok out →
            Spec.is_dict item ∨ out = VDict []).
Proof.
  split; [apply truncate_news_raises|]. split.
  - by destruct item.
  - intros out Hout. destruct item as [| | | |s|l|d];
      try (right;
           match type of Hout with
           | truncate_news ?x = _ =>
               destruct (truncate_news_other x) as [Heq | Heq];
               [done | congruence..]
           end).
    left. by exists d.
Qed.

Lemma omap_elem_of_ext {A B} (f g : A → option B) (l : list A) :
  (∀ x, x ∈ l → f x = g x) → omap f l = omap g l.
Proof.
  induction l as [|x l IH]; intros Hext; [done|]. csimpl.
  rewrite (Hext x) by apply list_elem_of_here.
  rewrite IH by (intros; by apply Hext, list_elem_of_further). done.
Qed.

Lemma truncate_news_again d :
  truncate_news
    (VDict (omap (λ k, pair k <$> dict_get d k) FREE_NEWS_FIELDS))
  = Ok (VDict (omap (λ k, pair k <$> dict_get d k) FREE_NEWS_FIELDS)).
Proof.
  rewrite truncate_news_dict. do 2 f_equal.
  apply omap_elem_of_ext. intros k Hk.
  by rewrite kept_get, decide_True.
Qed.

(** X9. [truncate_news] is idempotent: truncating what it returned gives
    the same again, and when it raised there is nothing to truncate. *)
Theorem truncate_news_idempotent item :
  truncate_news item ≫= truncate_news = truncate_news item.
Proof.
  destruct item as [| | | |s|l|d];
    try (match goal with
         | |- truncate_news ?x ≫= _ = _ =>
             by destruct (truncate_news_other x) as [-> | ->]
         end).
  rewrite truncate_news_dict.
  change (Ok ?x ≫= truncate_news) with (truncate_news x).
  exact (truncate_news_again d).
Qed.

(** X10. [format_recap] is idempotent, and only a dict gets through it:
    on anything else it raises [AttributeError]. *)
Theorem format_recap_idempotent item :
  format_recap item ≫= format_recap = format_recap item
  ∧ (¬ Spec.is_dict item → format_recap item = Raise AttributeError).
Proof.
  split.
  - by destruct item.
  - intros Hitem. destruct item; try done. destruct Hitem. by eexists.
Qed.

Lemma truncate_news_keys d :
  ∃ out,
    truncate_news (VDict d) = Ok (VDict out)
    ∧ dict_keys out = filter (λ k, k ∈ dict_keys d) FREE_NEWS_FIELDS.
Proof. eexists. split; [apply truncate_news_dict | apply kept_keys]. Qed.




End ShapersMore.

(** ** More on the tool registry *)

Section ServerMore.

Import Server.

Variable upstream : list Client.Request → Client.Request → Client.Reply.
Variable str_of : value → string.

Implicit Types (w : World).

Lemma connect_or_not w :
  Spec.can_connect w
  ∨ (_client w = None ∧ default "" (environ w !! "GLORIA_API_TOKEN") = "").
Proof.
  unfold Spec.can_connect. destruct (_client w) as [c|]; [left; left; eauto|].
  destruct (decide (default "" (environ w !! "GLORIA_API_TOKEN") = ""));
    [right | left; right]; done.
Qed.

(** A tool that fetches and then only computes hands httpx at most one
    GET. *)
Lemma fetch_one_request {A} (m : M Client.Conn value) path ps
    (k : value → M World A) :
  (∀ s, m s = Client._get upstream path ps s) →
  (∀ v w, (k v w).2 = w) →
  Spec.one_request_at_most (_ ← _get_client; x ← on_client m; k x).
Proof.
  intros Hm Hk w. rewrite (tool_ext _ _ _ w Hm).
  destruct (connect_or_not w) as [Hc | [Hnone Htoken]].
  - exists [Spec.request_of (Spec.conn_of w) path ps].
    rewrite (fetch_then upstream) by done. cbn zeta.
    destruct (Spec.answer _ _); [rewrite Hk|]; done.
  - exists []. rewrite no_client_then by done. rewrite app_nil_r.
    repeat split. cbn. lia.
Qed.

(** X2. No invocation sends more than one request: each tool and the
    categories resource leave the wire as it was plus at most one request,
    and none of them touches the environment. *)
Theorem one_request_per_invocation (category : option string)
    (topic timeframe query id : string) (limit : Z) :
  Spec.one_request_at_most (get_latest_news upstream category limit)
  ∧ Spec.one_request_at_most (get_news_recap upstream topic timeframe)
  ∧ Spec.one_request_at_most (search_news upstream query limit)
  ∧ Spec.one_request_at_most (get_categories upstream)
  ∧ Spec.one_request_at_most (get_news_item upstream id)
  ∧ Spec.one_request_at_most get_enriched_news
  ∧ Spec.one_request_at_most get_ticker_summary
  ∧ Spec.one_request_at_most (categories_resource upstream str_of).
Proof.
  assert (Spec.one_request_at_most (get_categories upstream)) as Hcats.
  { intros w.
    destruct (fetch_one_request (A:=value) (Client.get_categories upstream)
                "/available-feed-categories" None
                (λ v, (mret v : M World value))
                ltac:(done) ltac:(done) w) as (new & Hnew).
    exists new. clear -Hnew. unfold get_categories.
    rewrite !M_bind_run in *. destruct (_get_client w) as [[[]|e] w']; [|done].
    rewrite M_bind_run in Hnew. by destruct (on_client _ w') as [[v|e] w'']. }
  repeat split.
  - eapply fetch_one_request; [apply get_news_eq | done].
  - eapply fetch_one_request; [done|]. intros v w. by destruct (is_None v).
  - eapply fetch_one_request; [apply get_news_eq | done].
  - done.
  - eapply fetch_one_request; [done|]. intros v w. by destruct (is_None v).
  - intros w. exists []. rewrite app_nil_r. repeat split. cbn. lia.
  - intros w. exists []. rewrite app_nil_r. repeat split. cbn. lia.
  - intros w. rewrite categories_resource_eq. apply Hcats.
Qed.



Lemma get_categories_eq w :
  Spec.can_connect w →
  get_categories upstream w
  = (Spec.outcome
       (upstream (wire w)
          (Spec.request_of (Spec.conn_of w)
             "/available-feed-categories" None)),
     Spec.sent (Spec.request_of (Spec.conn_of w)
                  "/available-feed-categories" None) w).
Proof.
  intros Hc. unfold get_categories, Client.get_categories.
  rewrite (fetch_eq upstream) by done. by rewrite answer_accepted.
Qed.



Lemma fetch_request {A} (m : M Client.Conn value) path ps
    (k : value → M World A) w :
  (∀ s, m s = Client._get upstream path ps s) →
  (∀ v w, (k v w).2 = w) →
  Spec.can_connect w →
  ((_ ← _get_client; x ← on_client m; k x) w).2
  = Spec.sent (Spec.request_of (Spec.conn_of w) path ps) w.
Proof.
  intros Hm Hk Hc. rewrite (tool_ext _ _ _ w Hm).
  rewrite (fetch_then upstream) by done. cbn zeta.
  destruct (Spec.answer _ _); [apply Hk | done].
Qed.




(** Each invocation, in a process that can reach the upstream, is one
    GET of the process's client, refused by httpx or not. *)
Lemma invoke_sent (i : Spec.invocation) w :
  Spec.can_connect w →
  ∃ path ps,
    (Spec.invoke upstream i w).2
    = Spec.sent (Spec.request_of (Spec.conn_of w) path ps) w
    ∧ Client.has_control path = Spec.refused i.
Proof.
  intros Hc. destruct i; cbn [Spec.invoke Spec.refused].
  - exists "/news". eexists. unfold get_latest_news. split; [|reflexivity].
    by apply (fetch_request _ _ _ _ w (get_news_eq upstream _ _ _)).
  - exists "/recaps". eexists. unfold get_news_recap, Client.get_recap.
    split; [|reflexivity].
    apply (fetch_request _ _ _ _ w (λ _, eq_refl)); [|done].
    intros v w'. by destruct (is_None v).
  - exists "/news". eexists. unfold search_news. split; [|reflexivity].
    by apply (fetch_request _ _ _ _ w (get_news_eq upstream _ _ _)).
  - exists "/available-feed-categories". eexists.
    split; [|reflexivity]. by rewrite get_categories_eq.
  - exists ("/news/" +:+ id). eexists.
    unfold get_news_item, Client.get_news_by_id.
    split; [|apply news_item_path].
    apply (fetch_request _ _ _ _ w (λ _, eq_refl)); [|done].
    intros v w'. by destruct (is_None v).
Qed.





(** A tool that fetches and then only computes does not read the
    environment once the process holds a client. *)
Lemma fetch_environ {A} (m : M Client.Conn value) path ps
    (k : value → M World A) (r : value → result A) env w :
  (∀ s, m s = Client._get upstream path ps s) →
  (∀ v w, k v w = (r v, w)) →
  is_Some (_client w) →
  (_ ← _get_client; x ← on_client m; k x) (Spec.with_environ env w)
  = (((_ ← _get_client; x ← on_client m; k x) w).1,
     Spec.with_environ env ((_ ← _get_client; x ← on_client m; k x) w).2).
Proof.
  intros Hm Hk [c Hsome].
  rewrite (tool_ext _ _ _ w Hm), (tool_ext _ _ _ (Spec.with_environ env w) Hm).
  rewrite !(fetch_then upstream) by (left; by eexists). cbn zeta.
  assert (Spec.conn_of (Spec.with_environ env w) = Spec.conn_of w) as ->
    by (unfold Spec.conn_of, Spec.client_of; cbn; by rewrite Hsome).
  cbn [Spec.with_environ wire].
  assert (∀ rq, Spec.sent rq (Spec.with_environ env w)
                = Spec.with_environ env (Spec.sent rq w)) as Hsent.
  { intros rq. unfold Spec.sent, Spec.conn_of, Spec.client_of. cbn.
    by rewrite Hsome. }
  by destruct (Spec.answer _ _); rewrite ?Hk, Hsent.
Qed.

Lemma invoke_environ (i : Spec.invocation) env w :
  is_Some (_client w) →
  Spec.invoke upstream i (Spec.with_environ env w)
  = ((Spec.invoke upstream i w).1,
     Spec.with_environ env (Spec.invoke upstream i w).2).
Proof.
  intros Hsome. destruct i; cbn [Spec.invoke].
  - eapply fetch_environ; [apply get_news_eq | done..].
  - eapply (fetch_environ _ _ _ _
      (λ v, if is_None v then Ok _ else Models.format_recap v));
      [done | | done].
    intros v w'. by destruct (is_None v).
  - eapply fetch_environ; [apply get_news_eq | done..].
  - pose proof (fetch_environ (A:=value) (Client.get_categories upstream)
                  "/available-feed-categories" None
                  (λ v, (mret v : M World value)) Ok env w
                  ltac:(done) ltac:(done) Hsome) as Heq.
    unfold get_categories. rewrite !M_bind_run in *.
    destruct (_get_client w) as [[[]|e] w1],
      (_get_client (Spec.with_environ env w)) as [[[]|e'] w2]; try done.
    + rewrite !M_bind_run in Heq.
      by destruct (on_client _ w1) as [[v|e] w1'],
        (on_client _ w2) as [[v'|e'] w2'].
    + rewrite !M_bind_run in Heq.
      by destruct (on_client _ w1) as [[v|e1] w1'].
    + rewrite !M_bind_run in Heq.
      by destruct (on_client _ w2) as [[v|e1] w2'].
  - eapply (fetch_environ _ _ _ _
      (λ v, if is_None v then Ok _ else Models.truncate_news v));
      [done | | done].
    intros v w'. by destruct (is_None v).
Qed.

(** X7. The client is built once: after one invocation in a process that
    can reach the upstream, the process holds a client, and from then on
    no invocation reads the environment; with the token or the base URL
    changed or removed, each returns the same and sends the same. *)
Theorem client_is_built_once (i j : Spec.invocation) env w :
  Spec.can_connect w →
  is_Some (_client (Spec.invoke upstream i w).2)
  ∧ Spec.invoke upstream j
      (Spec.with_environ env (Spec.invoke upstream i w).2)
    = ((Spec.invoke upstream j (Spec.invoke upstream i w).2).1,
       Spec.with_environ env
         (Spec.invoke upstream j (Spec.invoke upstream i w).2).2).
Proof.
  intros Hc.
  assert (is_Some (_client (Spec.invoke upstream i w).2)) as Hsome.
  { destruct (invoke_sent i w Hc) as (path & ps & -> & _). by eexists. }
  split; [done|]. by apply invoke_environ.
Qed.

Lemma replies_outcome w status v :
  (∀ rq, upstream (wire w) rq = Client.Response status (Some v)) →
  200 ≤ status < 300 →
  ∀ rq, Spec.outcome (upstream (wire w) rq) = Ok v.
Proof.
  intros Hreply Hstatus rq. rewrite Hreply. cbn.
  by rewrite bool_decide_eq_true_2.
Qed.


Lemma lookup_tool_result {A} path ps (k : value → M World A) w v :
  Spec.can_connect w →
  Client.has_control path = false →
  (∀ rq, Spec.outcome (upstream (wire w) rq) = Ok v) →
  ((_ ← _get_client; x ← on_client (Client._get upstream path ps); k x) w)
  = k v (Spec.sent (Spec.request_of (Spec.conn_of w) path ps) w).
Proof.
  intros Hc Hpath Hout. rewrite (fetch_accepted upstream) by done. cbn zeta.
  by rewrite Hout.
Qed.



Lemma error_not_free : "error" ∉ Models.FREE_NEWS_FIELDS.
Proof. apply (bool_decide_unpack _). by vm_compute. Qed.

(** X13. The key [error] tells a miss from a hit: whenever
    [get_news_item] or [get_news_recap] returns, it returns a dict, and
    that dict has the key [error] exactly when the upstream answered
    [null]; an item or a recap that itself carries an [error] field does
    not show it. *)
Theorem error_key_means_not_found (topic timeframe id : string) w status v :
  Spec.can_connect w →
  (∀ rq, upstream (wire w) rq = Client.Response status (Some v)) →
  200 ≤ status < 300 →
  (∀ r, (get_news_item upstream id w).1 = Ok r →
        ∃ out, r = VDict out ∧ ("error" ∈ dict_keys out ↔ v = VNone))
  ∧ (∀ r, (get_news_recap upstream topic timeframe w).1 = Ok r →
          ∃ out, r = VDict out ∧ ("error" ∈ dict_keys out ↔ v = VNone)).
Proof.
  intros Hc Hreply Hstatus.
  pose proof (replies_outcome w status _ Hreply Hstatus) as Hout.
  unfold get_news_item, get_news_recap, Client.get_news_by_id,
    Client.get_recap.
  rewrite (lookup_tool_result "/recaps") with (v := v) by done.
  assert (∀ k : string, k ∈ @nil string ↔ False) as Hnil
    by (intros k; split; [apply not_elem_of_nil | done]).
  split; intros r.
  - destruct (Client.has_control id) eqn:Hid;
      [by rewrite (fetch_refused upstream) by (by rewrite ?news_item_path)|].
    rewrite lookup_tool_result with (v := v)
      by (by rewrite ?news_item_path).
    destruct v as [| | | |s|l|d]; cbn [is_None lift fst].
    + intros [= <-]. eexists. split; [done|].
      split; [done | intros _; apply list_elem_of_here].
    + done.
    + done.
    + done.
    + destruct (truncate_news_other (VStr s)) as [-> | ->]; [done| |done].
      intros [= <-]. exists []. split; [done|]. cbn. by rewrite Hnil.
    + destruct (truncate_news_other (VList l)) as [-> | ->]; [done| |done].
      intros [= <-]. exists []. split; [done|]. cbn. by rewrite Hnil.
    + destruct (truncate_news_keys d) as (out & -> & Hkeys).
      intros [= <-]. exists out. split; [done|].
      rewrite Hkeys, list_elem_of_filter.
      split; [intros [_ Hin]; by apply error_not_free in Hin | done].
  - destruct v as [| | | |s|l|d]; cbn [is_None lift fst]; try done.
    + intros [= <-]. eexists. split; [done|].
      split; [done | intros _; apply list_elem_of_here].
    + cbn. intros [= <-]. eexists. split; [done|].
      split; [|done]. cbn. intros Hin.
      by repeat (apply elem_of_cons in Hin as [?|Hin]; [done|]);
        apply elem_of_nil in Hin.
Qed.

Lemma render_record lines cat code name recap :
  Spec.category_record cat code name recap →
  render str_of lines cat
  = Ok (lines ++ [ Spec.category_line code name recap ]).
Proof.
  intros (d & -> & Hcode & Hname & Hrecap). unfold render. cbn.
  rewrite Hcode, Hname, Hrecap. cbn. unfold Spec.category_line.
  by destruct (decide (recap = "")) as [-> | Hne];
    [|rewrite bool_decide_eq_false_2 by done].
Qed.

Lemma for_loop_records cats lines new :
  Forall2 (λ cat line, ∃ code name recap,
             Spec.category_record cat code name recap
             ∧ line = Spec.category_line code name recap) cats new →
  for_loop (render str_of) lines cats = Ok (lines ++ new).
Proof.
  intros Hall. revert lines.
  induction Hall as [|cat line cats new (code & name & recap & Hcat & ->) _ IH];
    intros lines; cbn [for_loop].
  - by rewrite app_nil_r.
  - rewrite (render_record _ _ code name recap) by done. cbn.
    by rewrite IH, <- app_assoc.
Qed.

(** X14. What the categories resource shows: for records with strings
    under [code], [name] and [recap_timeframe] it returns the header line
    and one line per record, in the upstream's order, joined by line
    feeds; the line ends in [" (recaps every <cadence>)"], or in
    [" (no recaps)"] when the cadence is the empty string.  For an empty
    list that is the header alone. *)
Theorem categories_resource_renders w cats lines :
  (get_categories upstream w).1 = Ok (VList cats) →
  Forall2 (λ cat line, ∃ code name recap,
             Spec.category_record cat code name recap
             ∧ line = Spec.category_line code name recap) cats lines →
  (categories_resource upstream str_of w).1
  = Ok (join LF (Spec.HEADER :: lines))
  ∧ (cats = [] → (categories_resource upstream str_of w).1 = Ok Spec.HEADER).
Proof.
  intros Hcats Hall. rewrite categories_resource_eq. cbn [fst].
  rewrite Hcats. cbn [py_iter]. rewrite result_bind_Ok. split.
  - by rewrite (for_loop_records cats [ Spec.HEADER ] lines Hall).
  - by intros ->.
Qed.

(** X15. An empty string is no filter: [get_latest_news] with the
    category [""] is [get_latest_news] without a category, and
    [search_news] with the query [""] is [get_latest_news] without a
    category and with the limit clamped into [1, 5]. *)
Theorem empty_filter_is_no_filter (limit : Z) w :
  get_latest_news upstream (Some "") limit w
  = get_latest_news upstream None limit w
  ∧ search_news upstream "" limit w
    = get_latest_news upstream None (Z.max 1 (Z.min 5 limit)) w.
Proof.
  split.
  - unfold get_latest_news. by apply tool_ext.
  - unfold get_latest_news, search_news.
    replace (Z.max 1 (Z.min 10 (Z.max 1 (Z.min 5 limit))))
      with (Z.max 1 (Z.min 5 limit)) by lia.
    by apply tool_ext.
Qed.

End ServerMore.

(** ** The entry point *)

Section EntryPointFacts.

Import Server.

Variable int_of : string → result Z.

(** X16. How [main] picks the transport: it starts on standard input
    and output unless [MCP_TRANSPORT] is exactly [streamable-http], and
    then does not look at [MCP_PORT]; under [streamable-http] it binds
    [0.0.0.0] at the port [int] reads from [MCP_PORT], [8005] when that
    is not set, and raises what [int] raises. *)
Theorem main_transport w :
  ((main int_of w).1 = Ok Stdio
   ↔ environ w !! "MCP_TRANSPORT" ≠ Some "streamable-http")
  ∧ (environ w !! "MCP_TRANSPORT" = Some "streamable-http" →
     (main int_of w).1
     = StreamableHttp "0.0.0.0"
       <$> int_of (default "8005" (environ w !! "MCP_PORT"))).
Proof.
  unfold main. rewrite !M_bind_run. cbn [gets].
  destruct (environ w !! "MCP_TRANSPORT") as [t|] eqn:Ht; cbn [default].
  - destruct (decide (t = "streamable-http")) as [-> | Hne].
    + rewrite bool_decide_eq_true_2 by done. rewrite !M_bind_run.
      cbn [gets]. rewrite M_bind_run. unfold lift.
      destruct (int_of _) as [port|e]; cbn; split; try done;
        split; try done; by intros [].
    + rewrite bool_decide_eq_false_2 by done. cbn.
      split; [split; [congruence | done] | congruence].
  - rewrite bool_decide_eq_false_2 by done. cbn. split; [done|done].
Qed.

End EntryPointFacts.

(** ** The theorems at work *)



(** A tool call in a process without a token. *)
Lemma missing_token_is_fatal_witness :
  Server.get_latest_news (Spec.sample_upstream (VList [])) None 5
    Spec.bare_world
  = (Raise Spec.missing_token, Spec.bare_world).
Proof.
  destruct (missing_token_is_fatal (Spec.sample_upstream (VList []))
              None "bitcoin" "12h" "ETF" "42" 5 3 Spec.bare_world)
    as (_ & Htool & _).
  - reflexivity.
  - reflexivity.
  - exact Htool.
Defined.

(** A category list whose only record has no [name]. *)
Lemma categories_resource_degrades_witness :
  (Server.categories_resource
     (Spec.sample_upstream (VList [ VDict [ ("code", VStr "bitcoin") ] ]))
     (λ _, "") Spec.sample_world).1
  = Ok Server.FALLBACK.
Proof.
  destruct (categories_resource_degrades
              (Spec.sample_upstream
                 (VList [ VDict [ ("code", VStr "bitcoin") ] ]))
              (λ _, "") Spec.sample_world)
    as (_ & _ & Hbad & _).
  apply (Hbad [ VDict [ ("code", VStr "bitcoin") ] ]
              [ ("code", VStr "bitcoin") ]).
  - reflexivity.
  - apply list_elem_of_here.
  - right. intros Hin. apply elem_of_cons in Hin as [Heq | Hin].
    + discriminate Heq.
    + apply elem_of_nil in Hin. exact Hin.
Defined.





(** The token is taken out of the environment after the first call. *)
Lemma client_is_built_once_witness :
  (Spec.invoke (Spec.sample_upstream (VList [])) Spec.Categories
     (Spec.with_environ ∅
        (Spec.invoke (Spec.sample_upstream (VList [])) Spec.Categories
           Spec.sample_world).2)).1
  = Ok (VList []).
Proof.
  destruct (client_is_built_once (Spec.sample_upstream (VList []))
              Spec.Categories Spec.Categories ∅ Spec.sample_world)
    as [_ Hsame].
  - right. vm_compute. discriminate.
  - rewrite Hsame. reflexivity.
Defined.



(** An item that carries a field [error] of its own. *)
Lemma error_key_means_not_found_witness :
  (∀ r,
     (Server.get_news_item
        (Spec.sample_upstream
           (VDict [ ("id", VInt 7); ("error", VStr "x") ]))
        "7" Spec.sample_world).1 = Ok r →
     ∃ out, r = VDict out
            ∧ ("error" ∈ dict_keys out
               ↔ VDict [ ("id", VInt 7); ("error", VStr "x") ] = VNone))
  ∧ (∀ r,
       (Server.get_news_recap
          (Spec.sample_upstream
             (VDict [ ("id", VInt 7); ("error", VStr "x") ]))
          "bitcoin" "12h" Spec.sample_world).1 = Ok r →
       ∃ out, r = VDict out
              ∧ ("error" ∈ dict_keys out
                 ↔ VDict [ ("id", VInt 7); ("error", VStr "x") ] = VNone)).
Proof.
  apply (error_key_means_not_found
           (Spec.sample_upstream
              (VDict [ ("id", VInt 7); ("error", VStr "x") ]))
           "bitcoin" "12h" "7" Spec.sample_world 200).
  - right. vm_compute. discriminate.
  - intros rq. reflexivity.
  - lia.
Defined.

(** One category with a cadence. *)
Lemma categories_resource_renders_witness :
  (Server.categories_resource
     (Spec.sample_upstream
        (VList [ VDict [ ("code", VStr "bitcoin"); ("name", VStr "Bitcoin");
                         ("recap_timeframe", VStr "8h") ] ]))
     (λ _, "") Spec.sample_world).1
  = Ok (join LF [ Spec.HEADER; "- bitcoin: Bitcoin (recaps every 8h)" ]).
Proof.
  destruct (categories_resource_renders
              (Spec.sample_upstream
                 (VList [ VDict [ ("code", VStr "bitcoin");
                                  ("name", VStr "Bitcoin");
                                  ("recap_timeframe", VStr "8h") ] ]))
              (λ _, "") Spec.sample_world
              [ VDict [ ("code", VStr "bitcoin"); ("name", VStr "Bitcoin");
                        ("recap_timeframe", VStr "8h") ] ]
              [ "- bitcoin: Bitcoin (recaps every 8h)" ])
    as [Hrender _].
  - reflexivity.
  - constructor; [|constructor].
    exists "bitcoin", "Bitcoin", "8h". split; [|reflexivity].
    eexists. split; [reflexivity|]. split; [reflexivity|].
    split; reflexivity.
  - exact Hrender.
Defined.
